(** * Unidata python-training notebooks: helper functions and the
      850 hPa temperature-advection calculation cell

    The development embeds the code the notebooks define themselves:

    - [FindTimeVar]: the helper [find_time_var] of the gallery notebook
      "850 hPa Temperature Advection";
    - [CoordDistance]: the class [Coord] with its method [distancekm] of the
      notebook "Times and Dates";
    - [AdvectionNotebook]: the calculation cell of the gallery notebook, which
      calls [metpy.calc] for every numeric step.  MetPy is an external
      library; the cell is therefore modelled over an interface of its three
      entry points, and read in the free (term) interpretation where
      provenance matters;
    - [DataCell]: the array steps of the data cell of the gallery notebook,
      the selection of the 850 hPa level and the shifted longitude grid;
    - [Metar]: the function [metar] of "Times and Dates", over the network
      and the JSON decoder it calls. *)

From Stdlib Require Import List Arith ZArith Ascii String.
From Stdlib Require Import Reals Lra.
From Stdlib Require Import QArith Psatz.
From stdpp Require Import gmap strings.
Import ListNotations.

(* ===================================================================== *)
(** * [find_time_var] *)
(* ===================================================================== *)

Module FindTimeVar.

Local Open Scope string_scope.
Local Open Scope bool_scope.

(** Strings are sequences of code points below 256, which covers the
    CF attribute values (ASCII names) the helper is applied to. *)

(** [str.isspace] on one code point: TAB, LF, VT, FF, CR, the separators
    FS, GS, RS, US, SPACE, NEL (0x85) and NBSP (0xA0). *)
Definition isspace (c : ascii) : bool :=
  let n := nat_of_ascii c in
  ((9 <=? n)%nat && (n <=? 13)%nat)
  || ((28 <=? n)%nat && (n <=? 32)%nat)
  || (n =? 133)%nat
  || (n =? 160)%nat.

(** [str.split()] without arguments.  [split_from w s] scans [s] while [w]
    holds the characters of the word being read ([w] empty: between words);
    runs of whitespace separate words and produce no empty word. *)
Fixpoint split_from (w : string) (s : string) : list string :=
  match s with
  | EmptyString => match w with EmptyString => [] | _ => [w] end
  | String c s' =>
      if isspace c
      then match w with
           | EmptyString => split_from EmptyString s'
           | _ => w :: split_from EmptyString s'
           end
      else split_from (w ++ String c EmptyString) s'
  end.

Definition split (s : string) : list string := split_from EmptyString s.

(** [str.startswith]: [coord_name.startswith(time_basename)]. *)
Definition startswith (coord_name time_basename : string) : bool :=
  String.prefix time_basename coord_name.

(** The object passed as [var]: the helper reads its attributes
    [coordinates] and [name]. *)
Record variable : Type := Variable_
  { name : string;
    coordinates : string }.

Inductive exn : Type :=
| ValueError (msg : string).

(** The [for] loop with its early [return]; [None] when the loop runs to
    its end. *)
Fixpoint for_coord_name (time_basename : string) (coord_names : list string)
  : option string :=
  match coord_names with
  | [] => None
  | coord_name :: rest =>
      if startswith coord_name time_basename
      then Some coord_name
      else for_coord_name time_basename rest
  end.

Definition find_time_var (var : variable) (time_basename : string)
  : string + exn :=
  match for_coord_name time_basename (split (coordinates var)) with
  | Some coord_name => inl coord_name
  | None => inr (ValueError ("No time variable found for " ++ name var))
  end.

(** The keyword default [time_basename='time']. *)
Definition find_time_var_default (var : variable) : string + exn :=
  find_time_var var "time".

(** The variable the notebook passes: [Temperature_isobaric] of the GFS
    analysis, whose time coordinate is the second name. *)
Definition temp_var : variable :=
  Variable_ "Temperature_isobaric" "reftime time1 isobaric lat lon".

(** ** What "a whitespace-separated list of names" means *)

Definition chars (s : string) : list ascii := list_ascii_of_string s.

(** A name: at least one character, none of them whitespace. *)
Definition is_word (w : string) : Prop :=
  w <> EmptyString /\ forall c, In c (chars w) -> isspace c = false.

(** A (possibly empty) run of whitespace. *)
Definition is_blank (b : string) : Prop :=
  forall c, In c (chars b) -> isspace c = true.

(** What may follow a name: the end of the string after optional
    whitespace, or a non-empty gap and the next name. *)
Inductive after_word : list string -> string -> Prop :=
| aw_end b :
    is_blank b -> after_word [] b
| aw_next g w ns rest :
    is_blank g -> g <> EmptyString -> is_word w -> after_word ns rest ->
    after_word (w :: ns) (g ++ w ++ rest).

Definition whitespace_separated (ns : list string) (s : string) : Prop :=
  match ns with
  | [] => is_blank s
  | w :: ns' =>
      exists b rest,
        is_blank b /\ is_word w /\ after_word ns' rest /\ s = b ++ w ++ rest
  end.

(** [c] is the first of [ns] that starts with [base]. *)
Definition first_starting_with (base : string) (ns : list string) (c : string)
  : Prop :=
  exists before after,
    ns = (before ++ c :: after)%list
    /\ startswith c base = true
    /\ Forall (fun n => startswith n base = false) before.

End FindTimeVar.

(* ===================================================================== *)
(** * [Coord.distancekm] *)
(* ===================================================================== *)

Module CoordDistance.

Local Open Scope R_scope.

(** Python floats are read as real numbers; [math.sin], [math.cos] and
    [math.acos] as the real functions, [math.acos] raising outside
    [-1, 1]. *)

Record Coord : Type := mkCoord
  { lat : R;
    lon : R }.

(** [Coord()] with the defaults [latitude=0.0, longitude=0.0]. *)
Definition Coord_default : Coord := mkCoord 0 0.

Inductive exn : Type :=
| ValueError (msg : string).

Definition math_acos (x : R) : R + exn :=
  if Rle_dec (-1) x
  then if Rle_dec x 1
       then inl (acos x)
       else inr (ValueError "math domain error")
  else inr (ValueError "math domain error").

Definition DEGREES_TO_RADIANS : R := PI / 180.
Definition EARTH_RADIUS : R := 6373.

(** The local [cos] of the method: the argument handed to [math.acos]. *)
Definition acos_argument (self p : Coord) : R :=
  let phi1 := (90 - lat self) * DEGREES_TO_RADIANS in
  let phi2 := (90 - lat p) * DEGREES_TO_RADIANS in
  let theta1 := lon self * DEGREES_TO_RADIANS in
  let theta2 := lon p * DEGREES_TO_RADIANS in
  sin phi1 * sin phi2 * cos (theta1 - theta2) + cos phi1 * cos phi2.

Definition distancekm (self p : Coord) : R + exn :=
  match math_acos (acos_argument self p) with
  | inl arc => inl (arc * EARTH_RADIUS)
  | inr e => inr e
  end.

(** The two objects of the notebook's example. *)
Definition ny : Coord := mkCoord (4071 / 100) (7401 / 100).
Definition paris : Coord := mkCoord (4886 / 100) (235 / 100).

End CoordDistance.

(* ===================================================================== *)
(** * The calculation cell of "850 hPa Temperature Advection" *)
(* ===================================================================== *)

Module AdvectionNotebook.

Local Open Scope string_scope.

(** The three [metpy.calc] entry points the cell calls, over the values [V]
    the interpreter passes around (netCDF variables, arrays, quantities).
    [advection] receives the scalar, the list of wind components, the pair
    of spacings and the keyword [dim_order].  A call either returns or
    raises; [None] stands for an exception, which leaves the cell. *)
Class MetPyCalc (V : Type) : Type :=
  { lat_lon_grid_deltas : V -> V -> option (V * V);
    advection : V -> list V -> V * V -> string -> option V;
    smooth_gaussian : V -> Z -> option V }.

Section Cell.
Context {V : Type} `{MetPyCalc V}.

(** The interpreter's namespace is a [gmap string V]; reading a name that
    is not bound raises [NameError], again [None]. *)

(** [dx, dy = mpcalc.lat_lon_grid_deltas(lon_var, lat_var)] *)
Definition assign_dx_dy (ns : gmap string V) : option (gmap string V) :=
  lon_var ← ns !! "lon_var";
  lat_var ← ns !! "lat_var";
  '(dx, dy) ← lat_lon_grid_deltas lon_var lat_var;
  Some (<["dy" := dy]> (<["dx" := dx]> ns)).

(** [adv = mpcalc.advection(temp_850, [u_wind_850, v_wind_850],
                            (dx, dy), dim_order='yx')] *)
Definition assign_adv (ns : gmap string V) : option (gmap string V) :=
  temp_850 ← ns !! "temp_850";
  u_wind_850 ← ns !! "u_wind_850";
  v_wind_850 ← ns !! "v_wind_850";
  dx ← ns !! "dx";
  dy ← ns !! "dy";
  adv ← advection temp_850 [u_wind_850; v_wind_850] (dx, dy) "yx";
  Some (<["adv" := adv]> ns).

(** [Z_850 = mpcalc.smooth_gaussian(hght_850, 2)] *)
Definition assign_Z_850 (ns : gmap string V) : option (gmap string V) :=
  hght_850 ← ns !! "hght_850";
  Z_850 ← smooth_gaussian hght_850 2;
  Some (<["Z_850" := Z_850]> ns).

(** [adv = mpcalc.smooth_gaussian(adv, 2)] *)
Definition reassign_adv (ns : gmap string V) : option (gmap string V) :=
  adv ← ns !! "adv";
  adv ← smooth_gaussian adv 2;
  Some (<["adv" := adv]> ns).

(** The cell "Begin data calculations", statement after statement. *)
Definition calculations (ns : gmap string V) : option (gmap string V) :=
  ns ← assign_dx_dy ns;
  ns ← assign_adv ns;
  ns ← assign_Z_850 ns;
  reassign_adv ns.

(** "The computation produces a Gaussian-smoothed version of the source
    scalar field itself": after the cell some name holds what
    [smooth_gaussian] returns on the temperature the advection is computed
    from. *)
Definition produces_smoothed_source (ns ns' : gmap string V) : Prop :=
  ∃ temp_850 n smoothed x,
    ns !! "temp_850" = Some temp_850
    ∧ smooth_gaussian temp_850 n = Some smoothed
    ∧ ns' !! x = Some smoothed.

(** "... in addition to the smoothed derived advection field". *)
Definition produces_smoothed_advection (ns ns' : gmap string V) : Prop :=
  ∃ temp_850 u_wind_850 v_wind_850 lon_var lat_var deltas adv n smoothed x,
    ns !! "temp_850" = Some temp_850
    ∧ ns !! "u_wind_850" = Some u_wind_850
    ∧ ns !! "v_wind_850" = Some v_wind_850
    ∧ ns !! "lon_var" = Some lon_var
    ∧ ns !! "lat_var" = Some lat_var
    ∧ lat_lon_grid_deltas lon_var lat_var = Some deltas
    ∧ advection temp_850 [u_wind_850; v_wind_850] deltas "yx" = Some adv
    ∧ smooth_gaussian adv n = Some smoothed
    ∧ ns' !! x = Some smoothed.

(** The cell runs to its end and has smoothed both fields. *)
Definition smooths_source_and_advection (ns : gmap string V) : Prop :=
  ∃ ns', calculations ns = Some ns'
    ∧ produces_smoothed_source ns ns'
    ∧ produces_smoothed_advection ns ns'.

(** The names the cell assigns. *)
Definition assigned : list string := ["dx"; "dy"; "adv"; "Z_850"].
End Cell.

(** ** The free interpretation: every call returns, and is recorded as a
       term *)

#[local] Unset Elimination Schemes.
Inductive term : Type :=
| Name (x : string)
| GridDx (lon lat : term)
| GridDy (lon lat : term)
| Advection (scalar : term) (wind : list term) (dx dy : term)
    (dim_order : string)
| SmoothGaussian (field : term) (n : Z).
#[local] Set Elimination Schemes.

#[export] Instance term_calc : MetPyCalc term :=
  {| lat_lon_grid_deltas lon lat := Some (GridDx lon lat, GridDy lon lat);
     advection scalar wind deltas dim_order :=
       Some (Advection scalar wind (fst deltas) (snd deltas) dim_order);
     smooth_gaussian field n := Some (SmoothGaussian field n) |}.

(** The names the data cell leaves behind for the calculation cell. *)
Definition data_cell : gmap string term :=
  <["lon_var" := Name "lon_var"]>
    (<["lat_var" := Name "lat_var"]>
      (<["hght_850" := Name "hght_850"]>
        (<["temp_850" := Name "temp_850"]>
          (<["u_wind_850" := Name "u_wind_850"]>
            (<["v_wind_850" := Name "v_wind_850"]> ∅))))).

(** The namespace the cell leaves behind in the free interpretation. *)
Definition data_cell_after : gmap string term :=
  let dx := GridDx (Name "lon_var") (Name "lat_var") in
  let dy := GridDy (Name "lon_var") (Name "lat_var") in
  let adv :=
    Advection (Name "temp_850") [Name "u_wind_850"; Name "v_wind_850"]
      dx dy "yx" in
  <["adv" := SmoothGaussian adv 2]>
    (<["Z_850" := SmoothGaussian (Name "hght_850") 2]>
      (<["adv" := adv]> (<["dy" := dy]> (<["dx" := dx]> data_cell)))).

End AdvectionNotebook.

(* ===================================================================== *)
(** * The data cell of "850 hPa Temperature Advection": level selection and
      the longitude grid *)
(* ===================================================================== *)

Module DataCell.

Local Open Scope Q_scope.

(** One-dimensional arrays are lists, two-dimensional arrays lists of rows;
    the numbers are read as rationals. *)

(** [np.where(a == v)[0]]: the indices at which [a] equals [v], in
    increasing order; [where_eq_from i] counts positions from [i]. *)
Fixpoint where_eq_from (i : nat) (a : list Q) (v : Q) : list nat :=
  match a with
  | [] => []
  | x :: a' =>
      if Qeq_bool x v
      then i :: where_eq_from (S i) a' v
      else where_eq_from (S i) a' v
  end.

Definition where_eq (a : list Q) (v : Q) : list nat := where_eq_from 0 a v.

(** [lev_850 = np.where(data.variables['isobaric'][:] == 850 * 100)[0][0]];
    indexing an empty index array raises [IndexError] ([None]). *)
Definition lev_850 (isobaric : list Q) : option nat :=
  head (where_eq isobaric (850 * 100)).

(** [hght_850 = hght[lev_850]], and likewise for [temp], [u_wind] and
    [v_wind]: the slab of a field at the level found. *)
Definition at_850 {A : Type} (isobaric : list Q) (field : list A) : option A :=
  lev ← lev_850 isobaric;
  nth_error field lev.

(** [np.meshgrid(x, y)]: both results have one row per element of [y] and
    one column per element of [x]. *)
Definition meshgrid (x y : list Q) : list (list Q) * list (list Q) :=
  (map (fun _ => x) y, map (fun yi => map (fun _ => yi) x) y).

(** [a > 180], element by element. *)
Definition gt_180 (a : list (list Q)) : list (list bool) :=
  map (map (fun x => negb (Qle_bool x 180))) a.

(** [a[mask]]: the selected elements, row after row. *)
Fixpoint select_row (row : list Q) (mask : list bool) : option (list Q) :=
  match row, mask with
  | [], [] => Some []
  | x :: row', m :: mask' =>
      rest ← select_row row' mask';
      Some (if m then x :: rest else rest)
  | _, _ => None
  end.

Fixpoint mask_select (a : list (list Q)) (mask : list (list bool))
  : option (list Q) :=
  match a, mask with
  | [], [] => Some []
  | row :: a', m :: mask' =>
      here ← select_row row m;
      rest ← mask_select a' mask';
      Some (here ++ rest)
  | _, _ => None
  end.

(** [a[mask] = vals]: the selected positions receive the values in order;
    the result comes with the values to spare. *)
Fixpoint assign_row (row : list Q) (mask : list bool) (vals : list Q)
  : option (list Q * list Q) :=
  match row, mask with
  | [], [] => Some ([], vals)
  | x :: row', m :: mask' =>
      if m
      then match vals with
           | v :: vals' =>
               '(r, spare) ← assign_row row' mask' vals';
               Some (v :: r, spare)
           | [] => None
           end
      else '(r, spare) ← assign_row row' mask' vals;
           Some (x :: r, spare)
  | _, _ => None
  end.

Fixpoint assign_rows (a : list (list Q)) (mask : list (list bool))
    (vals : list Q) : option (list (list Q) * list Q) :=
  match a, mask with
  | [], [] => Some ([], vals)
  | row :: a', m :: mask' =>
      '(r, spare) ← assign_row row m vals;
      '(rs, spare') ← assign_rows a' mask' spare;
      Some (r :: rs, spare')
  | _, _ => None
  end.

(** The assignment raises when the number of values is not the number of
    selected positions. *)
Definition mask_assign (a : list (list Q)) (mask : list (list bool))
    (vals : list Q) : option (list (list Q)) :=
  '(r, spare) ← assign_rows a mask vals;
  match spare with
  | [] => Some r
  | _ => None
  end.

(** [lon_2d[lon_2d > 180] = lon_2d[lon_2d > 180] - 360] *)
Definition gridshift (lon_2d : list (list Q)) : option (list (list Q)) :=
  selected ← mask_select lon_2d (gt_180 lon_2d);
  mask_assign lon_2d (gt_180 lon_2d) (map (fun x => x - 360) selected).

(** [lon_2d, lat_2d = np.meshgrid(lon, lat)] followed by the grid shift. *)
Definition grids (lon lat : list Q)
  : option (list (list Q) * list (list Q)) :=
  let '(lon_2d, lat_2d) := meshgrid lon lat in
  lon_2d ← gridshift lon_2d;
  Some (lon_2d, lat_2d).

(** What the shift does to one longitude. *)
Definition shift_lon (x : Q) : Q :=
  if Qle_bool x 180 then x else x - 360.

End DataCell.

(* ===================================================================== *)
(** * [metar] of "Times and Dates" *)
(* ===================================================================== *)

Module Metar.

Local Open Scope string_scope.

(** The fields of a [datetime] object. *)
Record datetime : Type := mkDatetime
  { year : Z;
    month : Z;
    day : Z;
    hour : Z;
    minute : Z;
    second : Z;
    microsecond : Z }.

(** What the constructor accepts, with the years restricted to those every
    platform prints with four digits. *)
Definition valid (t : datetime) : Prop :=
  (1000 <= year t <= 9999)%Z
  /\ (1 <= month t <= 12)%Z
  /\ (1 <= day t <= 31)%Z
  /\ (0 <= hour t <= 23)%Z
  /\ (0 <= minute t <= 59)%Z
  /\ (0 <= second t <= 59)%Z
  /\ (0 <= microsecond t <= 999999)%Z.

Definition digit (n : Z) : ascii :=
  ascii_of_nat (Z.to_nat (48 + n mod 10)).

(** A number below 100 as two decimal digits, below 10000 as four. *)
Definition pad2 (n : Z) : string :=
  String (digit (n / 10)) (String (digit n) EmptyString).

Definition pad4 (n : Z) : string :=
  String (digit (n / 1000)) (String (digit (n / 100)) (pad2 n)).

(** [t.strftime(fmt)] for the directives [%Y %m %d %H %M %S] and [%%];
    other characters are copied, other directives are not modelled
    ([None]). *)
Fixpoint strftime (t : datetime) (fmt : string) : option string :=
  match fmt with
  | EmptyString => Some EmptyString
  | String "%" (String d fmt') =>
      field ←
        (if Ascii.eqb d "Y" then Some (pad4 (year t))
         else if Ascii.eqb d "m" then Some (pad2 (month t))
         else if Ascii.eqb d "d" then Some (pad2 (day t))
         else if Ascii.eqb d "H" then Some (pad2 (hour t))
         else if Ascii.eqb d "M" then Some (pad2 (minute t))
         else if Ascii.eqb d "S" then Some (pad2 (second t))
         else if Ascii.eqb d "%" then Some "%"
         else None);
      rest ← strftime t fmt';
      Some (field ++ rest)
  | String "%" EmptyString => None
  | String c fmt' =>
      rest ← strftime t fmt';
      Some (String c rest)
  end.

(** [template.format] with positional arguments, for empty replacement
    fields: ["{}"] takes the
    next argument, running out of arguments raises [IndexError]; other uses
    of braces are not modelled ([None]). *)
Fixpoint format (template : string) (args : list string) : option string :=
  match template with
  | EmptyString => Some EmptyString
  | String "{" (String "}" template') =>
      match args with
      | arg :: args' =>
          rest ← format template' args';
          Some (arg ++ rest)
      | [] => None
      end
  | String "{" _ => None
  | String "}" _ => None
  | String c template' =>
      rest ← format template' args;
      Some (String c rest)
  end.

Definition fmt : string := "%Y%m%d%H%M".

Definition url : string :=
  "http://api.mesowest.net/v2/stations/timeseries?"
  ++ "stid={}&start={}&end={}&vars={}&token=demotoken".

(** The URL the function opens. *)
Definition request (icao : string) (starttime endtime : datetime)
    (var : string) : option string :=
  st ← strftime starttime fmt;
  et ← strftime endtime fmt;
  format url [icao; st; et; var].

Section Network.
(** [urllib.request.urlopen(u).read().decode('utf8')] and [json.loads], over
    the type [J] of decoded JSON values; [None] is an exception. *)
Context {J : Type}.
Variable urlopen_read_decode : string -> option string.
Variable json_loads : string -> option J.

End Network.

(** The twelve characters the prose of the notebook announces for a
    time. *)
Definition stamp (t : datetime) : string :=
  pad4 (year t) ++ pad2 (month t) ++ pad2 (day t)
  ++ pad2 (hour t) ++ pad2 (minute t).

(** Reading a string of decimal digits back as a number; [None] when a
    character is not a digit. *)
Definition digit_value (c : ascii) : option Z :=
  let n := Z.of_nat (nat_of_ascii c) in
  if ((48 <=? n) && (n <=? 57))%Z then Some (n - 48)%Z else None.

Fixpoint decimal_from (acc : Z) (s : string) : option Z :=
  match s with
  | EmptyString => Some acc
  | String c s' =>
      d ← digit_value c;
      decimal_from (10 * acc + d)%Z s'
  end.

Definition decimal_value (s : string) : option Z := decimal_from 0 s.

(** The number a time stands for when year, month, day, hour and minute are
    written one after the other. *)
Definition minute_number (t : datetime) : Z :=
  (year t * 100000000 + month t * 1000000 + day t * 10000
   + hour t * 100 + minute t)%Z.

(** Two times in the same minute. *)
Definition same_minute (t t' : datetime) : Prop :=
  year t = year t' /\ month t = month t' /\ day t = day t'
  /\ hour t = hour t' /\ minute t = minute t'.

(** The call of the notebook. *)
Definition june_1_00 : datetime := mkDatetime 2016 6 1 0 0 0 0.
Definition june_1_06 : datetime := mkDatetime 2016 6 1 6 0 0 0.

End Metar.

(* ===================================================================== *)
(** * Properties of [find_time_var] *)
(* ===================================================================== *)

Module FindTimeVarFacts.
Import FindTimeVar.

Local Open Scope string_scope.
Local Arguments String.append : simpl nomatch.

Lemma append_nil_r (s : string) : s ++ "" = s.
Proof.
  induction s as [|c s IH]; simpl; [reflexivity | now rewrite IH].
Qed.

Lemma append_assoc (a b c : string) : (a ++ b) ++ c = a ++ (b ++ c).
Proof.
  induction a as [|x a IH]; simpl; [reflexivity | now rewrite IH].
Qed.

Lemma append_snoc_nonempty (w : string) (c : ascii) :
  w ++ String c "" <> "".
Proof.
  destruct w; simpl; discriminate.
Qed.

Lemma is_blank_cons (c : ascii) (b : string) :
  is_blank (String c b) -> isspace c = true /\ is_blank b.
Proof.
  intros Hb; split.
  - apply Hb; simpl; now left.
  - intros d Hd; apply Hb; simpl; now right.
Qed.

(** Leading whitespace is skipped. *)
Lemma split_from_blank (b s : string) :
  is_blank b -> split_from "" (b ++ s) = split_from "" s.
Proof.
  induction b as [|c b IH]; intros Hb; simpl.
  - reflexivity.
  - apply is_blank_cons in Hb as [Hc Hb].
    rewrite Hc. now apply IH.
Qed.

(** A non-empty gap ends the word being read. *)
Lemma split_from_gap (w g s : string) :
  w <> "" -> g <> "" -> is_blank g ->
  split_from w (g ++ s) = w :: split_from "" s.
Proof.
  intros Hw Hg Hb.
  destruct g as [|c g]; [congruence|].
  apply is_blank_cons in Hb as [Hc Hb].
  simpl. rewrite Hc.
  destruct w as [|x w]; [congruence|].
  f_equal. now apply split_from_blank.
Qed.

(** Whitespace up to the end of the string ends the word being read. *)
Lemma split_from_trailing (w b : string) :
  w <> "" -> is_blank b -> split_from w b = [w].
Proof.
  intros Hw Hb.
  destruct b as [|c b].
  - simpl. destruct w; [congruence | reflexivity].
  - pose proof (split_from_gap w (String c b) "" Hw ltac:(discriminate) Hb)
      as E.
    rewrite append_nil_r in E. rewrite E. reflexivity.
Qed.

(** Characters that are not whitespace extend the word being read. *)
Lemma split_from_word (x w s : string) :
  (forall c, In c (chars x) -> isspace c = false) ->
  split_from w (x ++ s) = split_from (w ++ x) s.
Proof.
  revert w.
  induction x as [|c x IH]; intros w Hx; simpl.
  - now rewrite append_nil_r.
  - rewrite (Hx c) by (simpl; now left).
    rewrite IH by (intros d Hd; apply Hx; simpl; now right).
    f_equal. rewrite append_assoc. reflexivity.
Qed.

Lemma split_after_word (ns : list string) (rest : string) :
  after_word ns rest ->
  forall w, w <> "" -> split_from w rest = w :: ns.
Proof.
  induction 1 as [b Hb | g w' ns rest Hg Hne [Hw' Hchars] _ IH]; intros w Hw.
  - now apply split_from_trailing.
  - rewrite split_from_gap by assumption.
    f_equal.
    rewrite split_from_word by assumption.
    simpl. now apply IH.
Qed.

(** [split] recovers the names of a whitespace-separated list. *)
Lemma split_whitespace_separated (ns : list string) (s : string) :
  whitespace_separated ns s -> split s = ns.
Proof.
  unfold split.
  destruct ns as [|w ns]; simpl.
  - intros Hb.
    rewrite <- (append_nil_r s).
    now rewrite split_from_blank.
  - intros (b & rest & Hb & [Hw Hchars] & Hrest & ->).
    rewrite split_from_blank by assumption.
    rewrite split_from_word by assumption.
    simpl. now apply split_after_word.
Qed.

(** Conversely every string is a whitespace-separated list of the names
    [split] returns: the relation describes all attribute values. *)
Lemma is_blank_nil : is_blank "".
Proof. intros c []. Qed.

Lemma is_blank_String (c : ascii) (b : string) :
  isspace c = true -> is_blank b -> is_blank (String c b).
Proof.
  intros Hc Hb d [<- | Hd]; [exact Hc | now apply Hb].
Qed.

Lemma after_word_space (c : ascii) (ns : list string) (s : string) :
  isspace c = true -> whitespace_separated ns s ->
  after_word ns (String c s).
Proof.
  intros Hc. destruct ns as [|w ns]; simpl.
  - intros Hb. apply aw_end. now apply is_blank_String.
  - intros (b & rest & Hb & Hw & Hrest & ->).
    apply (aw_next (String c b) w ns rest);
      [now apply is_blank_String | discriminate | assumption | assumption].
Qed.

Lemma whitespace_separated_space (c : ascii) (ns : list string) (s : string) :
  isspace c = true -> whitespace_separated ns s ->
  whitespace_separated ns (String c s).
Proof.
  intros Hc. destruct ns as [|w ns]; simpl.
  - now apply is_blank_String.
  - intros (b & rest & Hb & Hw & Hrest & ->).
    exists (String c b), rest.
    split; [now apply is_blank_String|].
    split; [assumption|]. split; [assumption | reflexivity].
Qed.

Lemma split_from_sound (s : string) :
  (forall w, w <> "" ->
     exists x rest ns,
       s = x ++ rest
       /\ (forall c, In c (chars x) -> isspace c = false)
       /\ after_word ns rest
       /\ split_from w s = (w ++ x) :: ns)
  /\ whitespace_separated (split_from "" s) s.
Proof.
  induction s as [|c s [IHin IHout]].
  - split.
    + intros w Hw. exists "", "", [].
      split; [reflexivity|]. split; [|split].
      * intros c [].
      * apply aw_end, is_blank_nil.
      * rewrite append_nil_r. simpl. destruct w; [congruence | reflexivity].
    + simpl. apply is_blank_nil.
  - destruct (isspace c) eqn:Hc.
    + split.
      * intros w Hw. exists "", (String c s), (split_from "" s).
        split; [reflexivity|]. split; [|split].
        -- intros d [].
        -- now apply after_word_space.
        -- rewrite append_nil_r. simpl. rewrite Hc.
           destruct w; [congruence | reflexivity].
      * simpl. rewrite Hc. now apply whitespace_separated_space.
    + assert (Hcons : forall x d,
                 (forall e, In e (chars x) -> isspace e = false) ->
                 In d (chars (String c x)) -> isspace d = false).
      { intros x d Hx [<- | Hd]; [exact Hc | now apply Hx]. }
      split.
      * intros w Hw.
        destruct (IHin (w ++ String c "") (append_snoc_nonempty w c))
          as (x & rest & ns & -> & Hx & Hrest & E).
        exists (String c x), rest, ns.
        split; [reflexivity|].
        split; [intros d; now apply Hcons|].
        split; [assumption|].
        simpl. rewrite Hc, E. now rewrite append_assoc.
      * destruct (IHin (String c "") ltac:(discriminate))
          as (x & rest & ns & -> & Hx & Hrest & E).
        simpl. rewrite Hc. simpl in E. rewrite E.
        exists "", rest.
        split; [apply is_blank_nil|].
        split; [split; [discriminate | intros d; now apply Hcons]|].
        split; [assumption | reflexivity].
Qed.

Lemma split_sound (s : string) : whitespace_separated (split s) s.
Proof. apply split_from_sound. Qed.

Lemma for_coord_name_first (base : string) (ns : list string) (c : string) :
  first_starting_with base ns c -> for_coord_name base ns = Some c.
Proof.
  intros (before & after & -> & Hc & Hbefore).
  induction Hbefore as [|n before Hn _ IH]; simpl.
  - now rewrite Hc.
  - now rewrite Hn.
Qed.

Lemma for_coord_name_none (base : string) (ns : list string) :
  (forall n, In n ns -> startswith n base = false) ->
  for_coord_name base ns = None.
Proof.
  induction ns as [|n ns IH]; intros Hall; simpl.
  - reflexivity.
  - rewrite (Hall n) by (simpl; now left).
    apply IH. intros m Hm. apply Hall. simpl; now right.
Qed.

(** C9.  When the [coordinates] attribute of [var] is a whitespace-separated
    list of names, [find_time_var var time_basename] returns the first of
    those names that starts with [time_basename]; when none of them does, it
    raises [ValueError] with the message
    ['No time variable found for ' + var.name]; and leaving
    [time_basename] out is the call with ['time']. *)
Theorem find_time_var_first_match
    (var : variable) (time_basename : string) (names : list string) :
  whitespace_separated names (coordinates var) ->
  (forall c, first_starting_with time_basename names c ->
             find_time_var var time_basename = inl c)
  /\ ((forall n, In n names -> startswith n time_basename = false) ->
      find_time_var var time_basename =
        inr (ValueError ("No time variable found for " ++ name var)))
  /\ find_time_var_default var = find_time_var var "time".
Proof.
  intros Hsep.
  apply split_whitespace_separated in Hsep.
  unfold find_time_var_default, find_time_var.
  rewrite Hsep.
  split; [|split].
  - intros c Hc. now rewrite (for_coord_name_first _ _ _ Hc).
  - intros Hnone. now rewrite (for_coord_name_none _ _ Hnone).
  - reflexivity.
Qed.

Ltac word_chars :=
  let c := fresh "c" in
  let Hc := fresh "Hc" in
  intros c Hc; simpl in Hc;
  repeat (destruct Hc as [<- | Hc]; [reflexivity|]);
  contradiction.

Ltac solve_word := split; [discriminate | word_chars].

Lemma find_time_var_first_match_witness :
  whitespace_separated ["reftime"; "time1"; "isobaric"; "lat"; "lon"]
    (coordinates temp_var)
  /\ find_time_var temp_var "time" = inl "time1".
Proof.
  assert (Hsep : whitespace_separated
                   ["reftime"; "time1"; "isobaric"; "lat"; "lon"]
                   (coordinates temp_var)).
  { exists "", " time1 isobaric lat lon".
    split; [word_chars|]. split; [solve_word|]. split; [|reflexivity].
    apply (aw_next " " "time1" _ " isobaric lat lon");
      [word_chars | discriminate | solve_word |].
    apply (aw_next " " "isobaric" _ " lat lon");
      [word_chars | discriminate | solve_word |].
    apply (aw_next " " "lat" _ " lon");
      [word_chars | discriminate | solve_word |].
    apply (aw_next " " "lon" _ "");
      [word_chars | discriminate | solve_word |].
    apply aw_end. word_chars. }
  split; [exact Hsep|].
  destruct (find_time_var_first_match temp_var "time" _ Hsep) as [Hfirst _].
  apply Hfirst.
  exists ["reftime"], ["isobaric"; "lat"; "lon"].
  split; [reflexivity|]. split; [reflexivity|].
  constructor; [reflexivity | constructor].
Defined.

(** The code on concrete attributes: tabs and repeated blanks separate
    names as single blanks do, and a variable without a time coordinate is
    named in the error. *)
Example find_time_var_tabs :
  find_time_var
    (Variable_ "u-component_of_wind_isobaric"
       (String (ascii_of_nat 9) "reftime  time lat")) "time"
  = inl "time".
Proof. reflexivity. Qed.

Example find_time_var_missing :
  find_time_var_default (Variable_ "lat" "reftime isobaric lat lon")
  = inr (ValueError "No time variable found for lat").
Proof. reflexivity. Qed.

End FindTimeVarFacts.

(* ===================================================================== *)
(** * Properties of [Coord.distancekm] *)
(* ===================================================================== *)

Module CoordDistanceFacts.
Import CoordDistance.

Local Open Scope R_scope.

(** The argument of [math.acos] does not depend on the order of the two
    points: products commute and the cosine is even. *)
Lemma acos_argument_sym (a b : Coord) :
  acos_argument a b = acos_argument b a.
Proof.
  unfold acos_argument; cbv zeta.
  replace (lon b * DEGREES_TO_RADIANS - lon a * DEGREES_TO_RADIANS)
    with (- (lon a * DEGREES_TO_RADIANS - lon b * DEGREES_TO_RADIANS))
    by ring.
  rewrite cos_neg. ring.
Qed.

Lemma unit_circle_product (s1 c1 s2 c2 d : R) :
  s1 * s1 + c1 * c1 = 1 ->
  s2 * s2 + c2 * c2 = 1 ->
  -1 <= d <= 1 ->
  -1 <= s1 * s2 * d + c1 * c2 <= 1.
Proof.
  intros H1 H2 [Hd1 Hd2].
  pose proof (Rle_0_sqr (s1 - s2)) as Q1.
  pose proof (Rle_0_sqr (s1 + s2)) as Q2.
  pose proof (Rle_0_sqr (c1 - c2)) as Q3.
  pose proof (Rle_0_sqr (c1 + c2)) as Q4.
  unfold Rsqr in Q1, Q2, Q3, Q4.
  destruct (Rle_dec 0 (s1 * s2)) as [Hp | Hp]; split; nra.
Qed.

(** Over the reals the argument always lies in the domain of [acos]. *)
Lemma acos_argument_bounds (a b : Coord) :
  -1 <= acos_argument a b <= 1.
Proof.
  unfold acos_argument; cbv zeta.
  apply unit_circle_product.
  - pose proof (sin2_cos2 ((90 - lat a) * DEGREES_TO_RADIANS)) as E.
    unfold Rsqr in E. exact E.
  - pose proof (sin2_cos2 ((90 - lat b) * DEGREES_TO_RADIANS)) as E.
    unfold Rsqr in E. exact E.
  - apply COS_bound.
Qed.

Lemma math_acos_in_domain (x : R) :
  -1 <= x <= 1 -> math_acos x = inl (acos x).
Proof.
  intros [Hlo Hhi]. unfold math_acos.
  destruct (Rle_dec (-1) x) as [_ | N]; [|contradiction].
  destruct (Rle_dec x 1) as [_ | N]; [reflexivity | contradiction].
Qed.

(** C10.  For two [Coord] objects whose [math.acos] argument lies in
    [-1, 1], [a.distancekm(b)] returns a distance, the arc times the earth
    radius, and [b.distancekm(a)] returns the same. *)
Theorem distancekm_symmetric (a b : Coord) :
  -1 <= acos_argument a b <= 1 ->
  distancekm a b = distancekm b a
  /\ distancekm a b = inl (acos (acos_argument a b) * EARTH_RADIUS).
Proof.
  intros Hdom. unfold distancekm.
  rewrite <- (acos_argument_sym a b).
  rewrite (math_acos_in_domain _ Hdom).
  split; reflexivity.
Qed.

Lemma distancekm_symmetric_witness :
  -1 <= acos_argument ny paris <= 1
  /\ distancekm ny paris = distancekm paris ny.
Proof.
  split.
  - apply acos_argument_bounds.
  - apply (distancekm_symmetric ny paris). apply acos_argument_bounds.
Defined.

(** Over the reals [distancekm] never raises: it is a total, symmetric
    function of the two points. *)
Lemma distancekm_total (a b : Coord) :
  distancekm a b = inl (acos (acos_argument a b) * EARTH_RADIUS).
Proof.
  unfold distancekm.
  now rewrite (math_acos_in_domain _ (acos_argument_bounds a b)).
Qed.

(** The distance of a point to itself is zero. *)
Lemma distancekm_self (a : Coord) : distancekm a a = inl 0.
Proof.
  rewrite distancekm_total. f_equal.
  assert (E : acos_argument a a = 1).
  { unfold acos_argument; cbv zeta.
    rewrite Rminus_diag, cos_0.
    pose proof (sin2_cos2 ((90 - lat a) * DEGREES_TO_RADIANS)) as S.
    unfold Rsqr in S. lra. }
  rewrite E, acos_1. ring.
Qed.

End CoordDistanceFacts.

(* ===================================================================== *)
(** * Properties of the calculation cell *)
(* ===================================================================== *)

Module AdvectionNotebookFacts.
Import AdvectionNotebook.

Local Open Scope string_scope.

Section Generic.
Context {V : Type} `{MetPyCalc V}.

(** Reading a name the cell has not assigned gives what it held before. *)
Lemma lookup_not_assigned (ns : gmap string V) (x : string)
    (dx dy adv Z_850 adv' : V) :
  x ∉ assigned ->
  (<["adv" := adv']>
     (<["Z_850" := Z_850]>
        (<["adv" := adv]> (<["dy" := dy]> (<["dx" := dx]> ns))))) !! x
  = ns !! x.
Proof.
  unfold assigned. intros Hx.
  rewrite !lookup_insert_ne; [reflexivity | | | | |];
    intros <-; apply Hx; set_solver.
Qed.
End Generic.

(** In the free interpretation the cell runs to its end. *)
Lemma calculations_data_cell : calculations data_cell = Some data_cell_after.
Proof. reflexivity. Qed.

(** No name of the resulting namespace holds a smoothed temperature. *)
Lemma data_cell_after_no_smoothed_temperature (x : string) (n : Z) :
  data_cell_after !! x <> Some (SmoothGaussian (Name "temp_850") n).
Proof.
  unfold data_cell_after, data_cell; cbv zeta.
  intros Hx.
  repeat (apply lookup_insert_Some in Hx as [[_ E] | [_ Hx]];
          [discriminate E|]).
  rewrite lookup_empty in Hx. discriminate Hx.
Qed.

(** C8, as the claim states it, fails: in the free interpretation the cell
    runs to its end, and no name holds a smoothed temperature. *)
Lemma calculations_do_not_smooth_temperature :
  calculations data_cell = Some data_cell_after
  ∧ ¬ smooths_source_and_advection data_cell.
Proof.
  split; [reflexivity|].
  intros (ns' & Hrun & (temp & n & smoothed & x & Htemp & Hcall & Hx) & _).
  rewrite calculations_data_cell in Hrun.
  injection Hrun as <-.
  assert (temp = Name "temp_850") as ->.
  { unfold data_cell in Htemp.
    rewrite !lookup_insert_ne, lookup_insert_eq in Htemp by discriminate.
    now injection Htemp. }
  simpl in Hcall. injection Hcall as <-.
  exact (data_cell_after_no_smoothed_temperature x n Hx).
Qed.

(** C8, amended.  When the data cell has bound the six inputs and the four
    library calls return, the cell runs to its end; [Z_850] then holds the
    smoothed geopotential height and [adv] the smoothed advection of the
    temperature (degree 2 both), [dx] and [dy] hold the grid spacings, and
    every other name, [temp_850] among them, holds what it held before. *)
Theorem calculations_smooth_heights_and_advection
    {V : Type} `{MetPyCalc V} (ns : gmap string V)
    (lon_var lat_var hght_850 temp_850 u_wind_850 v_wind_850 : V)
    (dx dy adv Z_850 adv' : V) :
  ns !! "lon_var" = Some lon_var ->
  ns !! "lat_var" = Some lat_var ->
  ns !! "hght_850" = Some hght_850 ->
  ns !! "temp_850" = Some temp_850 ->
  ns !! "u_wind_850" = Some u_wind_850 ->
  ns !! "v_wind_850" = Some v_wind_850 ->
  lat_lon_grid_deltas lon_var lat_var = Some (dx, dy) ->
  advection temp_850 [u_wind_850; v_wind_850] (dx, dy) "yx" = Some adv ->
  smooth_gaussian hght_850 2 = Some Z_850 ->
  smooth_gaussian adv 2 = Some adv' ->
  ∃ ns',
    calculations ns = Some ns'
    ∧ ns' !! "Z_850" = Some Z_850
    ∧ ns' !! "adv" = Some adv'
    ∧ ns' !! "dx" = Some dx
    ∧ ns' !! "dy" = Some dy
    ∧ ns' !! "temp_850" = Some temp_850
    ∧ ∀ x, x ∉ assigned -> ns' !! x = ns !! x.
Proof.
  intros Hlon Hlat Hhght Htemp Hu Hv Hdeltas Hadv HZ Hadv'.
  exists (<["adv" := adv']>
            (<["Z_850" := Z_850]>
               (<["adv" := adv]> (<["dy" := dy]> (<["dx" := dx]> ns))))).
  split; [|repeat split].
  - unfold calculations, assign_dx_dy, assign_adv, assign_Z_850, reassign_adv.
    simplify_map_eq. reflexivity.
  - now simplify_map_eq.
  - now simplify_map_eq.
  - now simplify_map_eq.
  - now simplify_map_eq.
  - now simplify_map_eq.
  - intros x Hx. now apply lookup_not_assigned.
Qed.

Lemma calculations_smooth_heights_and_advection_witness :
  ∃ ns',
    calculations data_cell = Some ns'
    ∧ ns' !! "Z_850" = Some (SmoothGaussian (Name "hght_850") 2)
    ∧ ns' !! "adv"
      = Some (SmoothGaussian
                (Advection (Name "temp_850")
                   [Name "u_wind_850"; Name "v_wind_850"]
                   (GridDx (Name "lon_var") (Name "lat_var"))
                   (GridDy (Name "lon_var") (Name "lat_var")) "yx") 2)
    ∧ ns' !! "temp_850" = Some (Name "temp_850").
Proof.
  destruct (calculations_smooth_heights_and_advection (H := term_calc)
              data_cell
              (Name "lon_var") (Name "lat_var") (Name "hght_850")
              (Name "temp_850") (Name "u_wind_850") (Name "v_wind_850")
              (GridDx (Name "lon_var") (Name "lat_var"))
              (GridDy (Name "lon_var") (Name "lat_var"))
              (Advection (Name "temp_850")
                 [Name "u_wind_850"; Name "v_wind_850"]
                 (GridDx (Name "lon_var") (Name "lat_var"))
                 (GridDy (Name "lon_var") (Name "lat_var")) "yx")
              (SmoothGaussian (Name "hght_850") 2)
              (SmoothGaussian
                 (Advection (Name "temp_850")
                    [Name "u_wind_850"; Name "v_wind_850"]
                    (GridDx (Name "lon_var") (Name "lat_var"))
                    (GridDy (Name "lon_var") (Name "lat_var")) "yx") 2)
              eq_refl eq_refl eq_refl eq_refl eq_refl eq_refl
              eq_refl eq_refl eq_refl eq_refl)
    as (ns' & Hrun & HZ & Hadv & _ & _ & Htemp & _).
  exists ns'. repeat split; assumption.
Defined.

End AdvectionNotebookFacts.

(* ===================================================================== *)
(** * More on [find_time_var]: what it returns and when it raises *)
(* ===================================================================== *)

Module FindTimeVarMore.
Import FindTimeVar FindTimeVarFacts.

Local Open Scope string_scope.
Local Arguments String.append : simpl nomatch.

Lemma after_word_words (ns : list string) (rest : string) :
  after_word ns rest -> Forall is_word ns.
Proof.
  induction 1; constructor; assumption.
Qed.

(** Every element of [split s] is a name: non-empty, free of whitespace. *)
Lemma split_words (s : string) : Forall is_word (split s).
Proof.
  pose proof (split_sound s) as Hs.
  destruct (split s) as [|w ns]; [constructor|].
  destruct Hs as (b & rest & _ & Hw & Hrest & _).
  constructor; [assumption | now apply (after_word_words ns rest)].
Qed.

(** The loop returns [c] exactly when [c] is the first match. *)
Lemma for_coord_name_Some (base : string) (ns : list string) (c : string) :
  for_coord_name base ns = Some c <-> first_starting_with base ns c.
Proof.
  split; [|apply for_coord_name_first].
  induction ns as [|n ns IH]; simpl; [discriminate|].
  destruct (startswith n base) eqn:Hn.
  - intros [= <-]. exists [], ns. repeat split; [assumption | constructor].
  - intros Hc. destruct (IH Hc) as (before & after & -> & Hcb & Hbefore).
    exists (n :: before), after.
    split; [reflexivity|]. split; [assumption|]. now constructor.
Qed.


Lemma prefix_nil (s : string) : String.prefix "" s = true.
Proof. destruct s; reflexivity. Qed.

Lemma prefix_app_l (b m s : string) :
  String.prefix (b ++ m) s = true -> String.prefix b s = true.
Proof.
  revert s. induction b as [|x b IH]; intros s; simpl.
  - intros _. apply prefix_nil.
  - destruct s as [|y s]; [discriminate|].
    change (String.prefix (String x (b ++ m)) (String y s) = true ->
            String.prefix (String x b) (String y s) = true).
    simpl.
    destruct (ascii_dec x y); [apply IH | discriminate].
Qed.

(** X1.  A name [find_time_var] returns is one of the names [split] finds in
    the attribute, starts with [time_basename], is not empty and contains
    no whitespace. *)
Theorem find_time_var_returns_coordinate
    (var : variable) (time_basename c : string) :
  find_time_var var time_basename = inl c ->
  In c (split (coordinates var))
  /\ startswith c time_basename = true
  /\ is_word c.
Proof.
  unfold find_time_var.
  destruct (for_coord_name time_basename (split (coordinates var)))
    as [c'|] eqn:E; [|discriminate].
  intros [= <-].
  apply for_coord_name_Some in E as (before & after & Hsplit & Hc & _).
  assert (Hin : In c' (split (coordinates var))).
  { rewrite Hsplit. apply in_or_app. right. now left. }
  split; [assumption|]. split; [assumption|].
  pose proof (split_words (coordinates var)) as Hw.
  rewrite List.Forall_forall in Hw. now apply Hw.
Qed.

Lemma find_time_var_returns_coordinate_witness :
  find_time_var temp_var "time" = inl "time1"
  /\ In "time1" (split (coordinates temp_var)).
Proof.
  split; [reflexivity|].
  apply (find_time_var_returns_coordinate temp_var "time" "time1").
  reflexivity.
Defined.


(** X3.  An attribute that is empty or holds only whitespace has no names:
    the call raises whatever [time_basename] is. *)
Theorem find_time_var_blank_attribute
    (var : variable) (time_basename : string) :
  is_blank (coordinates var) ->
  find_time_var var time_basename =
    inr (ValueError ("No time variable found for " ++ name var)).
Proof.
  intros Hb.
  assert (Hsplit : split (coordinates var) = []).
  { apply (split_whitespace_separated [] _). exact Hb. }
  unfold find_time_var. rewrite Hsplit. reflexivity.
Qed.

Lemma find_time_var_blank_attribute_witness :
  find_time_var (Variable_ "lat" "  ") "time" =
    inr (ValueError "No time variable found for lat").
Proof.
  apply (find_time_var_blank_attribute (Variable_ "lat" "  ") "time").
  intros c Hc; simpl in Hc.
  repeat (destruct Hc as [<- | Hc]; [reflexivity|]).
  contradiction.
Defined.

(** X4.  Every string starts with the empty string: with an empty
    [time_basename] the call returns the first name of the attribute. *)
Theorem find_time_var_empty_basename
    (var : variable) (n : string) (ns : list string) :
  whitespace_separated (n :: ns) (coordinates var) ->
  find_time_var var "" = inl n.
Proof.
  intros Hsep. apply split_whitespace_separated in Hsep.
  unfold find_time_var. rewrite Hsep. simpl.
  unfold startswith. now rewrite prefix_nil.
Qed.

Lemma find_time_var_empty_basename_witness :
  find_time_var (Variable_ "lat" "lat") "" = inl "lat".
Proof.
  apply (find_time_var_empty_basename (Variable_ "lat" "lat") "lat" []).
  exists "", "".
  split; [intros c []|].
  split; [split; [discriminate|]|].
  - intros c Hc; simpl in Hc.
    repeat (destruct Hc as [<- | Hc]; [reflexivity|]).
    contradiction.
  - split; [|reflexivity]. apply aw_end. intros c [].
Defined.

(** X5.  Shortening [time_basename] never loses the time variable: when the
    call succeeds with [base ++ more], it succeeds with [base] too, with a
    name that comes no later in the attribute. *)
Theorem find_time_var_shorter_basename
    (var : variable) (base more c : string) :
  find_time_var var (base ++ more) = inl c ->
  exists c' before after,
    find_time_var var base = inl c'
    /\ split (coordinates var) = (before ++ c' :: after)%list
    /\ (c' = c \/ In c after).
Proof.
  unfold find_time_var.
  generalize (split (coordinates var)) as ns.
  induction ns as [|n ns IH]; simpl; [discriminate|].
  destruct (startswith n base) eqn:Hb.
  - intros Hc. exists n, [], ns.
    split; [reflexivity|]. split; [reflexivity|].
    destruct (startswith n (base ++ more)) eqn:Hbm.
    + left. congruence.
    + right.
      destruct (for_coord_name (base ++ more) ns) as [c'|] eqn:E;
        [|discriminate].
      injection Hc as <-.
      apply for_coord_name_Some in E as (before & after & -> & _ & _).
      apply in_or_app. right. now left.
  - assert (Hbm : startswith n (base ++ more) = false).
    { destruct (startswith n (base ++ more)) eqn:Hbm; [|reflexivity].
      unfold startswith in *.
      apply prefix_app_l in Hbm. congruence. }
    rewrite Hbm. intros Hc.
    destruct (IH Hc) as (c' & before & after & Hret & -> & Hpos).
    exists c', (n :: before), after.
    split; [assumption|]. split; [reflexivity | assumption].
Qed.

Lemma find_time_var_shorter_basename_witness :
  exists c', find_time_var temp_var "time" = inl c'.
Proof.
  destruct (find_time_var_shorter_basename temp_var "time" "1" "time1"
              eq_refl) as (c' & _ & _ & Hret & _).
  exists c'. exact Hret.
Defined.

End FindTimeVarMore.

(* ===================================================================== *)
(** * More on [Coord.distancekm]: range and special positions *)
(* ===================================================================== *)

Module CoordDistanceMore.
Import CoordDistance CoordDistanceFacts.

Local Open Scope R_scope.
















End CoordDistanceMore.

(* ===================================================================== *)
(** * More on the calculation cell: when it completes, and running it
      again *)
(* ===================================================================== *)

Module AdvectionNotebookMore.
Import AdvectionNotebook AdvectionNotebookFacts.

Local Open Scope string_scope.

Section Generic.
Context {V : Type} `{MetPyCalc V}.

(** The namespace the four assignments leave behind. *)
Lemma calculations_completes (ns : gmap string V)
    (lon_var lat_var hght_850 temp_850 u_wind_850 v_wind_850 : V)
    (dx dy adv Z_850 adv' : V) :
  ns !! "lon_var" = Some lon_var ->
  ns !! "lat_var" = Some lat_var ->
  ns !! "hght_850" = Some hght_850 ->
  ns !! "temp_850" = Some temp_850 ->
  ns !! "u_wind_850" = Some u_wind_850 ->
  ns !! "v_wind_850" = Some v_wind_850 ->
  lat_lon_grid_deltas lon_var lat_var = Some (dx, dy) ->
  advection temp_850 [u_wind_850; v_wind_850] (dx, dy) "yx" = Some adv ->
  smooth_gaussian hght_850 2 = Some Z_850 ->
  smooth_gaussian adv 2 = Some adv' ->
  calculations ns
  = Some (<["adv" := adv']>
            (<["Z_850" := Z_850]>
               (<["adv" := adv]> (<["dy" := dy]> (<["dx" := dx]> ns))))).
Proof.
  intros Hlon Hlat Hhght Htemp Hu Hv Hdeltas Hadv HZ Hadv'.
  unfold calculations, assign_dx_dy, assign_adv, assign_Z_850, reassign_adv.
  simplify_map_eq. reflexivity.
Qed.

(** X12.  The cell completes only if the data cell has bound all six
    inputs and each of the four library calls returns; the namespace it
    leaves is then the old one with [dx], [dy], [Z_850] and [adv] assigned,
    [adv] holding the smoothed advection and the unsmoothed one being
    overwritten. *)
Theorem calculations_inversion (ns ns' : gmap string V) :
  calculations ns = Some ns' ->
  ∃ lon_var lat_var hght_850 temp_850 u_wind_850 v_wind_850
    dx dy adv Z_850 adv',
    ns !! "lon_var" = Some lon_var
    ∧ ns !! "lat_var" = Some lat_var
    ∧ ns !! "hght_850" = Some hght_850
    ∧ ns !! "temp_850" = Some temp_850
    ∧ ns !! "u_wind_850" = Some u_wind_850
    ∧ ns !! "v_wind_850" = Some v_wind_850
    ∧ lat_lon_grid_deltas lon_var lat_var = Some (dx, dy)
    ∧ advection temp_850 [u_wind_850; v_wind_850] (dx, dy) "yx" = Some adv
    ∧ smooth_gaussian hght_850 2 = Some Z_850
    ∧ smooth_gaussian adv 2 = Some adv'
    ∧ ns' = <["adv" := adv']>
              (<["Z_850" := Z_850]>
                 (<["adv" := adv]> (<["dy" := dy]> (<["dx" := dx]> ns)))).
Proof.
  unfold calculations, assign_dx_dy, assign_adv, assign_Z_850, reassign_adv.
  intros Hrun. simplify_option_eq.
  match goal with
  | Hp : (let '(_, _) := ?p in _) = _ |- _ => destruct p as [dx dy]
  end.
  simplify_map_eq.
  do 11 eexists. repeat split; eauto.
Qed.

(** X13.  Running the cell a second time changes nothing: the advection is
    computed from the temperature again, so it is not smoothed twice. *)
Theorem calculations_rerun (ns ns' : gmap string V) :
  calculations ns = Some ns' -> calculations ns' = Some ns'.
Proof.
  intros Hrun.
  destruct (calculations_inversion ns ns' Hrun)
    as (lon_var & lat_var & hght_850 & temp_850 & u & v & dx & dy & adv
        & Z_850 & adv' & Hlon & Hlat & Hhght & Htemp & Hu & Hv
        & Hdeltas & Hadv & HZ & Hadv' & ->).
  rewrite (calculations_completes _ lon_var lat_var hght_850 temp_850 u v
             dx dy adv Z_850 adv');
    try assumption; try (now simplify_map_eq).
  f_equal. apply map_eq. intros k.
  destruct (decide (k = "adv")) as [-> | Hadvk]; [now simplify_map_eq|].
  destruct (decide (k = "Z_850")) as [-> | HZk]; [now simplify_map_eq|].
  destruct (decide (k = "dy")) as [-> | Hdyk]; [now simplify_map_eq|].
  destruct (decide (k = "dx")) as [-> | Hdxk]; [now simplify_map_eq|].
  now simplify_map_eq.
Qed.
End Generic.

Lemma calculations_inversion_witness :
  ∃ temp_850, data_cell !! "temp_850" = Some temp_850.
Proof.
  destruct (calculations_inversion (H := term_calc) data_cell data_cell_after
              eq_refl)
    as (? & ? & ? & temp_850 & ? & ? & ? & ? & ? & ? & ? & ? & ? & ?
        & Htemp & ?).
  exists temp_850. exact Htemp.
Defined.

Lemma calculations_rerun_witness :
  calculations data_cell_after = Some data_cell_after.
Proof.
  apply (calculations_rerun (H := term_calc) data_cell data_cell_after).
  reflexivity.
Defined.

End AdvectionNotebookMore.

(* ===================================================================== *)
(** * The data cell: the 850 hPa level and the shifted longitude grid *)
(* ===================================================================== *)

Module DataCellFacts.
Import DataCell.

Local Open Scope Q_scope.

(** The first index found, counted from [i]. *)
Lemma head_where_eq_from (v : Q) (a : list Q) (i : nat) :
  match head (where_eq_from i a v) with
  | Some k =>
      exists j x,
        k = (i + j)%nat
        /\ nth_error a j = Some x /\ x == v
        /\ forall j' y, (j' < j)%nat -> nth_error a j' = Some y -> ~ y == v
  | None => forall x, In x a -> ~ x == v
  end.
Proof.
  revert i. induction a as [|x a IH]; intros i; simpl.
  - intros y [].
  - destruct (Qeq_bool x v) eqn:E; simpl.
    + exists 0%nat, x.
      split; [lia|]. split; [reflexivity|].
      split; [now apply Qeq_bool_iff|].
      intros j' y Hj'. lia.
    + assert (Hx : ~ x == v).
      { intros Hxv. apply Qeq_bool_iff in Hxv. congruence. }
      specialize (IH (S i)).
      destruct (head (where_eq_from (S i) a v)) as [k|].
      * destruct IH as (j & y & -> & Hnth & Hy & Hfirst).
        exists (S j), y.
        split; [lia|]. split; [exact Hnth|]. split; [exact Hy|].
        intros [|j'] z Hj' Hz; simpl in Hz.
        -- injection Hz as <-. exact Hx.
        -- apply (Hfirst j' z); [lia | exact Hz].
      * intros y [<- | Hy]; [exact Hx | now apply IH].
Qed.

(** X14.  [lev_850] is the position of the first level that equals 85000:
    the level at that position is 85000 and no earlier one is; the lookup
    raises exactly when no level equals 85000. *)
Theorem lev_850_first (isobaric : list Q) :
  (forall k,
      lev_850 isobaric = Some k <->
      (exists x, nth_error isobaric k = Some x /\ x == 85000)
      /\ forall j y, (j < k)%nat -> nth_error isobaric j = Some y ->
                     ~ y == 85000)
  /\ (lev_850 isobaric = None <->
      forall x, In x isobaric -> ~ x == 85000).
Proof.
  assert (E85 : 850 * 100 == 85000) by reflexivity.
  pose proof (head_where_eq_from (850 * 100) isobaric 0) as Hhead.
  unfold lev_850, where_eq.
  destruct (head (where_eq_from 0 isobaric (850 * 100))) as [k0|].
  - destruct Hhead as (j & x & -> & Hnth & Hx & Hfirst). simpl.
    split.
    + intros k. split.
      * intros [= <-]. split.
        -- exists x. split; [exact Hnth | now rewrite Hx].
        -- intros j' y Hj' Hy Hy85. apply (Hfirst j' y Hj' Hy).
           now rewrite Hy85.
      * intros [(y & Hy & Hy85) Hk].
        f_equal.
        destruct (Nat.lt_trichotomy j k) as [Hlt | [-> | Hgt]];
          [|reflexivity|].
        -- exfalso. apply (Hk j x Hlt Hnth). now rewrite Hx.
        -- exfalso. apply (Hfirst k y Hgt Hy). now rewrite Hy85.
    + split; [discriminate|].
      intros Hnone. exfalso.
      apply (Hnone x); [now apply (nth_error_In _ j) | now rewrite Hx].
  - split.
    + intros k. split; [discriminate|].
      intros [(y & Hy & Hy85) _]. exfalso.
      apply (Hhead y); [now apply (nth_error_In _ k) | now rewrite Hy85].
    + split; [|reflexivity].
      intros _ x Hx Hx85. apply (Hhead x Hx). now rewrite Hx85.
Qed.

(** X15.  When the field has one slab for every level and some level equals
    85000, taking the slab at [lev_850] does not raise, and it is the slab
    of the first such level. *)
Theorem at_850_defined {A : Type} (isobaric : list Q) (field : list A) :
  length field = length isobaric ->
  (exists x, In x isobaric /\ x == 85000) ->
  exists k slab,
    lev_850 isobaric = Some k
    /\ at_850 isobaric field = Some slab
    /\ nth_error field k = Some slab.
Proof.
  intros Hlen (x & Hin & Hx).
  destruct (lev_850_first isobaric) as [Hsome Hnone].
  unfold at_850.
  destruct (lev_850 isobaric) as [k|] eqn:Hlev.
  - destruct (proj1 (Hsome k) eq_refl) as [(y & Hy & _) _].
    assert (Hk : (k < length field)%nat).
    { rewrite Hlen. apply nth_error_Some. congruence. }
    destruct (nth_error field k) as [slab|] eqn:Hslab.
    + exists k, slab. simpl. rewrite Hslab. repeat split.
    + apply nth_error_None in Hslab. lia.
  - exfalso. exact (proj1 Hnone eq_refl x Hin Hx).
Qed.

Lemma at_850_defined_witness :
  exists k slab,
    lev_850 [100000; 92500; 85000; 70000] = Some k
    /\ at_850 [100000; 92500; 85000; 70000] [1; 2; 3; 4]%nat = Some slab
    /\ nth_error [1; 2; 3; 4]%nat k = Some slab.
Proof.
  apply (at_850_defined [100000; 92500; 85000; 70000] [1; 2; 3; 4]%nat).
  - reflexivity.
  - exists 85000. split; [simpl; tauto | reflexivity].
Defined.

(** Reading one row through its own mask and writing the values back,
    360 less each, shifts the row; values meant for later rows are handed
    on. *)
Lemma assign_select_row (row : list Q) :
  exists selected,
    select_row row (map (fun x => negb (Qle_bool x 180)) row) = Some selected
    /\ forall later,
        assign_row row (map (fun x => negb (Qle_bool x 180)) row)
          (map (fun x => x - 360) selected ++ later)
        = Some (map shift_lon row, later).
Proof.
  induction row as [|x row (selected & Hsel & Hassign)]; simpl.
  - exists []. split; [reflexivity | intros later; reflexivity].
  - rewrite Hsel; simpl. unfold shift_lon at 1.
    destruct (Qle_bool x 180); simpl.
    + exists selected. split; [reflexivity|].
      intros later. rewrite Hassign. reflexivity.
    + exists (x :: selected). split; [reflexivity|].
      intros later. simpl. rewrite Hassign. reflexivity.
Qed.

Lemma assign_select_rows (a : list (list Q)) :
  exists selected,
    mask_select a (map (map (fun x => negb (Qle_bool x 180))) a)
    = Some selected
    /\ forall later,
        assign_rows a (map (map (fun x => negb (Qle_bool x 180))) a)
          (map (fun x => x - 360) selected ++ later)
        = Some (map (map shift_lon) a, later).
Proof.
  induction a as [|row a (selected & Hsel & Hassign)]; simpl.
  - exists []. split; [reflexivity | intros later; reflexivity].
  - destruct (assign_select_row row) as (here & Hhere & Hrow).
    rewrite Hhere; simpl. rewrite Hsel; simpl.
    exists (here ++ selected)%list. split; [reflexivity|].
    intros later.
    rewrite map_app, <- app_assoc, Hrow; simpl.
    rewrite Hassign. reflexivity.
Qed.

(** X16.  The masked read and write of the grid shift never raise and come
    to the same as shifting every entry on its own: an entry above 180 is
    lowered by 360, every other entry is kept, and the shape of the array
    is unchanged. *)
Theorem gridshift_pointwise (lon_2d : list (list Q)) :
  gridshift lon_2d = Some (map (map shift_lon) lon_2d).
Proof.
  unfold gridshift, mask_assign, gt_180.
  destruct (assign_select_rows lon_2d) as (selected & Hsel & Hassign).
  rewrite Hsel; simpl.
  specialize (Hassign []). rewrite app_nil_r in Hassign.
  rewrite Hassign. reflexivity.
Qed.

Lemma shift_lon_range (x : Q) :
  0 <= x <= 360 -> -180 < shift_lon x <= 180.
Proof.
  intros [Hlo Hhi]. unfold shift_lon.
  destruct (Qle_bool x 180) eqn:E.
  - apply Qle_bool_iff in E. lra.
  - assert (Hgt : 180 < x).
    { apply Qnot_le_lt. intros Hle. apply Qle_bool_iff in Hle. congruence. }
    lra.
Qed.

(** X17.  Longitudes given between 0 and 360 degrees all lie above -180 and
    at most at 180 after the grid shift. *)
Theorem gridshift_range (lon_2d shifted : list (list Q)) :
  (forall row x, In row lon_2d -> In x row -> 0 <= x <= 360) ->
  gridshift lon_2d = Some shifted ->
  forall row x, In row shifted -> In x row -> -180 < x <= 180.
Proof.
  intros Hin. rewrite gridshift_pointwise. intros [= <-] row x Hrow Hx.
  apply in_map_iff in Hrow as (row0 & <- & Hrow0).
  apply in_map_iff in Hx as (x0 & <- & Hx0).
  apply shift_lon_range. now apply (Hin row0).
Qed.

Lemma gridshift_range_witness : -180 < -140 <= 180.
Proof.
  apply (gridshift_range [[220; 310]; [180; 181]] [[-140; -50]; [180; -179]])
    with (row := [-140; -50]).
  - intros row x Hrow Hx. simpl in Hrow.
    destruct Hrow as [<- | [<- | []]]; simpl in Hx;
      destruct Hx as [<- | [<- | []]]; split; discriminate.
  - reflexivity.
  - simpl. tauto.
  - simpl. tauto.
Defined.

(** X18.  The two grids the cell builds have one row for every latitude and
    one column for every longitude; at row [i] and column [j] the latitude
    grid holds the [i]-th latitude and the longitude grid the shifted
    [j]-th longitude. *)
Theorem grids_entries (lon lat : list Q) :
  exists lon_2d lat_2d,
    grids lon lat = Some (lon_2d, lat_2d)
    /\ length lon_2d = length lat
    /\ length lat_2d = length lat
    /\ forall i j la lo,
        nth_error lat i = Some la ->
        nth_error lon j = Some lo ->
        (exists row, nth_error lon_2d i = Some row
                     /\ length row = length lon
                     /\ nth_error row j = Some (shift_lon lo))
        /\ (exists row, nth_error lat_2d i = Some row
                        /\ length row = length lon
                        /\ nth_error row j = Some la).
Proof.
  exists (map (map shift_lon) (map (fun _ => lon) lat)),
         (map (fun yi => map (fun _ => yi) lon) lat).
  split.
  - unfold grids, meshgrid. rewrite gridshift_pointwise. reflexivity.
  - rewrite !length_map. split; [reflexivity|]. split; [reflexivity|].
    intros i j la lo Hla Hlo. split.
    + exists (map shift_lon lon).
      rewrite !nth_error_map, Hla, Hlo, length_map; simpl.
      repeat split.
    + exists (map (fun _ => la) lon).
      rewrite !nth_error_map, Hla, Hlo, length_map; simpl.
      repeat split.
Qed.

End DataCellFacts.

(* ===================================================================== *)
(** * [metar]: the URL it opens *)
(* ===================================================================== *)

Module MetarFacts.
Import Metar.

Local Open Scope string_scope.
Local Arguments String.append : simpl nomatch.

Lemma strftime_fmt (t : datetime) : strftime t fmt = Some (stamp t).
Proof. reflexivity. Qed.

Lemma request_url (icao var : string) (starttime endtime : datetime) :
  request icao starttime endtime var
  = Some ("http://api.mesowest.net/v2/stations/timeseries?stid=" ++ icao
          ++ "&start=" ++ stamp starttime
          ++ "&end=" ++ stamp endtime
          ++ "&vars=" ++ var ++ "&token=demotoken").
Proof. reflexivity. Qed.

Lemma digit_value_digit (n : Z) : digit_value (digit n) = Some (n mod 10)%Z.
Proof.
  unfold digit_value, digit.
  pose proof (Z.mod_pos_bound n 10 ltac:(lia)) as Hm.
  rewrite nat_ascii_embedding by lia.
  rewrite Z2Nat.id by lia.
  replace ((48 <=? 48 + n mod 10)%Z && (48 + n mod 10 <=? 57)%Z) with true
    by (symmetry; apply andb_true_iff; split; apply Z.leb_le; lia).
  f_equal. lia.
Qed.

Lemma decimal_from_pad2 (acc n : Z) (rest : string) :
  (0 <= n <= 99)%Z ->
  decimal_from acc (pad2 n ++ rest) = decimal_from (acc * 100 + n)%Z rest.
Proof.
  intros Hn. unfold pad2. simpl.
  rewrite !digit_value_digit; simpl.
  f_equal. Z.to_euclidean_division_equations. lia.
Qed.

Lemma decimal_from_pad4 (acc n : Z) (rest : string) :
  (0 <= n <= 9999)%Z ->
  decimal_from acc (pad4 n ++ rest) = decimal_from (acc * 10000 + n)%Z rest.
Proof.
  intros Hn. unfold pad4, pad2. simpl.
  rewrite !digit_value_digit; simpl.
  f_equal. Z.to_euclidean_division_equations. lia.
Qed.

Lemma stamp_value (t : datetime) :
  valid t -> decimal_value (stamp t) = Some (minute_number t).
Proof.
  intros (Hy & Hm & Hd & HH & HM & _).
  unfold decimal_value, stamp, minute_number.
  change (pad2 (minute t)) with (pad2 (minute t) ++ "").
  rewrite decimal_from_pad4 by lia.
  rewrite !decimal_from_pad2 by lia.
  simpl. f_equal. lia.
Qed.

Lemma stamp_length (t : datetime) : String.length (stamp t) = 12%nat.
Proof. reflexivity. Qed.

Lemma append_inv_head (a x y : string) : a ++ x = a ++ y -> x = y.
Proof.
  induction a as [|c a IH]; simpl; [tauto|].
  intros [= E]. now apply IH.
Qed.

Lemma append_inv_length (a b x y : string) :
  String.length a = String.length b ->
  a ++ x = b ++ y -> a = b /\ x = y.
Proof.
  revert b. induction a as [|c a IH]; intros [|d b]; simpl;
    try discriminate.
  - intros _ E. split; [reflexivity | exact E].
  - intros [= Hlen] [= -> E].
    destruct (IH b Hlen E) as [-> ->]. split; reflexivity.
Qed.

(** The two time fields can be read off the URL. *)
Lemma url_times (icao var a b a' b' : string) :
  String.length a = String.length a' ->
  String.length b = String.length b' ->
  "http://api.mesowest.net/v2/stations/timeseries?stid=" ++ icao
    ++ "&start=" ++ a ++ "&end=" ++ b ++ "&vars=" ++ var
    ++ "&token=demotoken"
  = "http://api.mesowest.net/v2/stations/timeseries?stid=" ++ icao
    ++ "&start=" ++ a' ++ "&end=" ++ b' ++ "&vars=" ++ var
    ++ "&token=demotoken" ->
  a = a' /\ b = b'.
Proof.
  intros Ha Hb E.
  apply append_inv_head, append_inv_head, append_inv_head in E.
  apply (append_inv_length a a') in E as [-> E]; [|exact Ha].
  apply append_inv_head in E.
  apply (append_inv_length b b') in E as [-> _]; [|exact Hb].
  split; reflexivity.
Qed.

Lemma same_minute_stamp (t t' : datetime) :
  same_minute t t' -> stamp t = stamp t'.
Proof.
  intros (Hy & Hm & Hd & HH & HM). unfold stamp.
  now rewrite Hy, Hm, Hd, HH, HM.
Qed.

Lemma stamp_same_minute (t t' : datetime) :
  valid t -> valid t' -> stamp t = stamp t' -> same_minute t t'.
Proof.
  intros Ht Ht' E.
  pose proof (stamp_value t Ht) as V.
  pose proof (stamp_value t' Ht') as V'.
  rewrite E, V' in V. injection V as V.
  destruct Ht as (Hy & Hm & Hd & HH & HM & _).
  destruct Ht' as (Hy' & Hm' & Hd' & HH' & HM' & _).
  unfold minute_number in V. unfold same_minute.
  repeat split; lia.
Qed.

Ltac valid_datetime := unfold valid; simpl; repeat split; lia.

(** X19.  For valid times [metar] asks for the MesoWest time-series URL
    with the station, the start, the end and the variable in this order;
    start and end are twelve characters each, the decimal digits of year,
    month, day, hour and minute. *)
Theorem request_timeseries_url
    (icao var : string) (starttime endtime : datetime) :
  valid starttime -> valid endtime ->
  exists st et,
    request icao starttime endtime var
    = Some ("http://api.mesowest.net/v2/stations/timeseries?stid=" ++ icao
            ++ "&start=" ++ st ++ "&end=" ++ et
            ++ "&vars=" ++ var ++ "&token=demotoken")
    /\ String.length st = 12%nat
    /\ decimal_value st = Some (minute_number starttime)
    /\ String.length et = 12%nat
    /\ decimal_value et = Some (minute_number endtime).
Proof.
  intros Hs He. exists (stamp starttime), (stamp endtime).
  split; [apply request_url|].
  split; [apply stamp_length|]. split; [now apply stamp_value|].
  split; [apply stamp_length | now apply stamp_value].
Qed.

Lemma request_timeseries_url_witness :
  exists st et,
    request "pasy" june_1_00 june_1_06 "air_temp"
    = Some ("http://api.mesowest.net/v2/stations/timeseries?stid=" ++ "pasy"
            ++ "&start=" ++ st ++ "&end=" ++ et
            ++ "&vars=" ++ "air_temp" ++ "&token=demotoken")
    /\ decimal_value st = Some 201606010000%Z
    /\ decimal_value et = Some 201606010600%Z.
Proof.
  destruct (request_timeseries_url "pasy" "air_temp" june_1_00 june_1_06)
    as (st & et & Hreq & _ & Hst & _ & Het);
    [valid_datetime | valid_datetime |].
  exists st, et.
  split; [exact Hreq|]. split; [exact Hst | exact Het].
Defined.

(** The call of the notebook opens the URL its prose quotes. *)
Example request_pasy :
  request "pasy" june_1_00 june_1_06 "air_temp"
  = Some ("http://api.mesowest.net/v2/stations/timeseries?"
          ++ "stid=pasy&start=201606010000&end=201606010600"
          ++ "&vars=air_temp&token=demotoken").
Proof. reflexivity. Qed.

(** X20.  The URL tells the times apart exactly up to the minute: for valid
    times, two calls for the same station and variable ask for the same URL
    if and only if their start times lie in the same minute and so do their
    end times. *)
Theorem request_minute_resolution
    (icao var : string) (s e s' e' : datetime) :
  valid s -> valid e -> valid s' -> valid e' ->
  request icao s e var = request icao s' e' var
  <-> same_minute s s' /\ same_minute e e'.
Proof.
  intros Hs He Hs' He'. rewrite !request_url. split.
  - intros E.
    assert (Estamps : stamp s = stamp s' /\ stamp e = stamp e').
    { apply (url_times icao var); [reflexivity | reflexivity |].
      exact (f_equal (fun o => default EmptyString o) E). }
    destruct Estamps as [Estart Eend].
    split; now apply stamp_same_minute.
  - intros [Hstart Hend].
    now rewrite (same_minute_stamp _ _ Hstart), (same_minute_stamp _ _ Hend).
Qed.

Lemma request_minute_resolution_witness :
  request "pasy" june_1_00 june_1_06 "air_temp"
  = request "pasy" june_1_00 (mkDatetime 2016 6 1 6 0 59 999999) "air_temp".
Proof.
  apply (request_minute_resolution "pasy" "air_temp" june_1_00 june_1_06
           june_1_00 (mkDatetime 2016 6 1 6 0 59 999999));
    valid_datetime.
Defined.



End MetarFacts.
